(** * A polled driver for a memory-mapped UART (emb1.c)

    The driver consists of three C functions, [init_uart], [write_uart] and
    [read_uart], which work on a [UART_HANDLE] reached through a pointer and
    talk to the peripheral through five [volatile uint32_t *] registers.

    The embedding below keeps that shape:
    - a handle pointer is an address ([NULL] is [0]); the handles live in a
      store indexed by address, so that a write through the pointer is seen
      by every later read through it;
    - a volatile access is a call into a device, which may answer each load
      differently and may react to each store;
    - every access and every [printf] is appended to a log, which is what
      lets one say that a path touched no register. *)

From Stdlib Require Import ZArith Lia Zwf.
From stdpp Require Import gmap strings list well_founded.
From Equations Require Import Equations.

Local Open Scope Z_scope.

(** ** Machine integers *)

(** Conversion to [uint32_t]: reduction modulo [2^32]. *)
Definition to_uint32 (v : Z) : Z := v mod 2 ^ 32.

(** Conversion of a [uint32_t] value to [int] (32 bits, two's complement),
    as [return rdrVal;] does in a function returning [int]. *)
Definition to_int (v : Z) : Z :=
  let w := to_uint32 v in
  if decide (w < 2 ^ 31) then w else w - 2 ^ 32.

(** ** Constants of the source *)

Definition UART_BASE : Z := 0xFC000000.
Definition CNR_OFFSET : Z := 0x0.
Definition BRR_OFFSET : Z := 0x4.
Definition STA_OFFSET : Z := 0x8.
Definition TDR_OFFSET : Z := 0xC.
Definition RDR_OFFSET : Z := 0x10.

Definition TIMEOUT_LIMIT : Z := 1000000.

Definition NULL : Z := 0.

(** ** The handle *)

Record UART_HANDLE : Type := mkHandle {
  baseAddress : Z;
  cnr : Z;
  brr : Z;
  sta : Z;
  tdr : Z;
  rdr : Z;
  isInitialized : bool
}.

Definition set_baseAddress (v : Z) (u : UART_HANDLE) : UART_HANDLE :=
  mkHandle v (cnr u) (brr u) (sta u) (tdr u) (rdr u) (isInitialized u).
Definition set_cnr (v : Z) (u : UART_HANDLE) : UART_HANDLE :=
  mkHandle (baseAddress u) v (brr u) (sta u) (tdr u) (rdr u) (isInitialized u).
Definition set_brr (v : Z) (u : UART_HANDLE) : UART_HANDLE :=
  mkHandle (baseAddress u) (cnr u) v (sta u) (tdr u) (rdr u) (isInitialized u).
Definition set_sta (v : Z) (u : UART_HANDLE) : UART_HANDLE :=
  mkHandle (baseAddress u) (cnr u) (brr u) v (tdr u) (rdr u) (isInitialized u).
Definition set_tdr (v : Z) (u : UART_HANDLE) : UART_HANDLE :=
  mkHandle (baseAddress u) (cnr u) (brr u) (sta u) v (rdr u) (isInitialized u).
Definition set_rdr (v : Z) (u : UART_HANDLE) : UART_HANDLE :=
  mkHandle (baseAddress u) (cnr u) (brr u) (sta u) (tdr u) v (isInitialized u).
Definition set_isInitialized (b : bool) (u : UART_HANDLE) : UART_HANDLE :=
  mkHandle (baseAddress u) (cnr u) (brr u) (sta u) (tdr u) (rdr u) b.

(** ** Observable events *)

Inductive event : Type :=
| EvLoad (addr val : Z)
| EvStore (addr val : Z)
| EvPrintf (msg : string).

Definition is_access (e : event) : bool :=
  match e with
  | EvLoad _ _ | EvStore _ _ => true
  | EvPrintf _ => false
  end.

(** The register accesses recorded in a log. *)
Definition accesses (l : list event) : list event := filter (λ e, is_access e = true) l.

(** The value a register holds as far as the driver knows: the last value it
    stored there. *)
Fixpoint last_store (a : Z) (l : list event) : option Z :=
  match l with
  | [] => None
  | e :: l' =>
      match last_store a l' with
      | Some v => Some v
      | None =>
          match e with
          | EvStore a' v => if decide (a' = a) then Some v else None
          | _ => None
          end
      end
  end.

(** ** The device behind the volatile pointers *)

Class Device (D : Type) : Type := {
  dev_load : D → Z → Z * D;
  dev_store : D → Z → Z → D
}.

(** ** The bounded wait of [write_uart] and [read_uart]

    [while (!(staVal & mask)) { timer++; if (timer > TIMEOUT_LIMIT) return; }]
    The loop works on the local [staVal], which was loaded before the loop;
    its body loads nothing. *)

Inductive wait_exit : Type := WaitReady | WaitTimeout.

(** The loop ends because [TIMEOUT_LIMIT + 1 - timer] decreases and stays
    non-negative; the guard lets the recursion be evaluated. *)
#[local] Instance Zwf_guarded : WellFounded (Zwf 0) :=
  wf_guard 32 (Zwf_well_founded 0).

Equations wait_loop (mask staVal timer : Z) : wait_exit
  by wf (TIMEOUT_LIMIT + 1 - timer) (Zwf 0) :=
wait_loop mask staVal timer with decide (Z.land staVal mask = 0) := {
  | right _ => WaitReady
  | left _ with decide (timer + 1 > TIMEOUT_LIMIT) := {
      | left _ => WaitTimeout
      | right _ => wait_loop mask staVal (timer + 1) } }.
Next Obligation. unfold Zwf. lia. Qed.

(** ** Program state and the monad of the driver

    [handles] is the memory holding [UART_HANDLE] objects, by address; [hw] is
    the state of the device; [log] lists, oldest first, what the program did
    that can be seen from outside. A computation yields [None] where the C
    program has no defined behaviour (a handle pointer that is neither [NULL]
    nor the address of a handle). The registers and the handles are kept
    apart: a register pointer is an address of the device, never of a
    handle. *)

Record machine (D : Type) : Type := mkMachine {
  handles : gmap Z UART_HANDLE;
  hw : D;
  log : list event
}.
Arguments mkMachine {D} _ _ _.
Arguments handles {D} _.
Arguments hw {D} _.
Arguments log {D} _.

Definition M (D A : Type) : Type := machine D → option (A * machine D).

Definition ret {D A} (a : A) : M D A := λ m, Some (a, m).

Definition bind {D A B} (c : M D A) (k : A → M D B) : M D B :=
  λ m, match c m with
       | Some (a, m') => k a m'
       | None => None
       end.

Notation "x <~ c ;; k" := (bind c (λ x, k))
  (at level 100, c at next level, k at level 200, right associativity).
Notation "c ;;; k" := (bind c (λ _, k))
  (at level 100, k at level 200, right associativity).

(** The line feed that ends most of the messages. *)
Definition nl : string := String (Ascii.ascii_of_nat 10) EmptyString.

Section Driver.
Context {D : Type} `{Device D}.

Definition printf (msg : string) : M D unit :=
  λ m, Some (tt, mkMachine (handles m) (hw m) (log m ++ [EvPrintf msg])).

(** [*p] for a [volatile uint32_t *p]. *)
Definition load32 (p : Z) : M D Z :=
  λ m, let '(raw, d) := dev_load (hw m) p in
       let v := to_uint32 raw in
       Some (v, mkMachine (handles m) d (log m ++ [EvLoad p v])).

(** [*p = v] for a [volatile uint32_t *p]; [v] is converted to [uint32_t]. *)
Definition store32 (p : Z) (v : Z) : M D unit :=
  λ m, let w := to_uint32 v in
       Some (tt, mkMachine (handles m) (dev_store (hw m) p w) (log m ++ [EvStore p w])).

(** [h->f] read. *)
Definition field {A} (h : Z) (f : UART_HANDLE → A) : M D A :=
  λ m, match handles m !! h with
       | Some u => Some (f u, m)
       | None => None
       end.

(** [h->f = v], with [upd] the setter of field [f]. *)
Definition assign (h : Z) (upd : UART_HANDLE → UART_HANDLE) : M D unit :=
  λ m, match handles m !! h with
       | Some u => Some (tt, mkMachine (<[h := upd u]> (handles m)) (hw m) (log m))
       | None => None
       end.

(** *** Diagnostics, as the source spells them *)

Definition msg_null : string := "Null pointer encountered " ++ nl.
Definition msg_write_uninit : string := "UART is not initialized." ++ nl.
Definition msg_read_uninit : string := "UART not initialized" ++ nl.
Definition msg_write_timeout : string :=
  "Maximum timeout reached. Device is not yet available to write new data".
Definition msg_read_timeout : string :=
  "Maximum timeout reached. Device is not yet available to read new data".
Definition msg_writing : string := "Writing data .. " ++ nl.

(** *** [void write_uart(UART_HANDLE *h, char c)]

    [c] is the value of the [char] argument; the assignment to [*(h->tdr)]
    converts it to [uint32_t]. *)

Definition write_uart (h : Z) (c : Z) : M D unit :=
  if decide (h = NULL) then printf msg_null
  else
    init <~ field h isInitialized ;;
    if negb init then printf msg_write_uninit
    else
      p <~ field h sta ;;
      staVal <~ load32 p ;;
      match wait_loop 0x02 staVal 0 with
      | WaitTimeout => printf msg_write_timeout
      | WaitReady =>
          printf msg_writing ;;;
          q <~ field h tdr ;;
          store32 q c
      end.

(** *** [int read_uart(UART_HANDLE *h)] *)

Definition read_uart (h : Z) : M D Z :=
  if decide (h = NULL) then printf msg_null ;;; ret (-1)
  else
    init <~ field h isInitialized ;;
    if negb init then printf msg_read_uninit ;;; ret (-1)
    else
      p <~ field h sta ;;
      staVal <~ load32 p ;;
      match wait_loop 0x01 staVal 0 with
      | WaitTimeout => printf msg_read_timeout ;;; ret (-1)
      | WaitReady =>
          q <~ field h rdr ;;
          rdrVal <~ load32 q ;;
          ret (to_int rdrVal)
      end.

(** *** [void init_uart(UART_HANDLE *h, bool useMock)]

    The sums [UART_BASE + X_OFFSET] are [unsigned int] sums. *)

Definition init_uart (h : Z) (useMock : bool) : M D unit :=
  if decide (h = NULL) then printf msg_null
  else
    assign h (set_baseAddress UART_BASE) ;;;
    assign h (set_cnr (to_uint32 (UART_BASE + CNR_OFFSET))) ;;;
    assign h (set_brr (to_uint32 (UART_BASE + BRR_OFFSET))) ;;;
    assign h (set_sta (to_uint32 (UART_BASE + STA_OFFSET))) ;;;
    assign h (set_tdr (to_uint32 (UART_BASE + TDR_OFFSET))) ;;;
    assign h (set_rdr (to_uint32 (UART_BASE + RDR_OFFSET))) ;;;
    p <~ field h cnr ;;
    store32 p 0x3 ;;;
    q <~ field h brr ;;
    store32 q 0x0866 ;;;
    assign h (set_isInitialized true).

End Driver.

(** ** What [init_uart] leaves in a handle *)

Definition initialized_handle : UART_HANDLE :=
  mkHandle UART_BASE
    (to_uint32 (UART_BASE + CNR_OFFSET))
    (to_uint32 (UART_BASE + BRR_OFFSET))
    (to_uint32 (UART_BASE + STA_OFFSET))
    (to_uint32 (UART_BASE + TDR_OFFSET))
    (to_uint32 (UART_BASE + RDR_OFFSET))
    true.

(** The diagnostics printed in a log, oldest first. *)
Definition printed (l : list event) : list string :=
  omap (λ e, match e with EvPrintf s => Some s | _ => None end) l.

(** ** The register layout of the source's header comment

    [BRR[0:3]] baud rate, [BRR[4:5]] parity, [BRR[8]] flow control,
    [BRR[12:15]] number of stop bits. *)

Definition brr_pack (baud parity flow stop : Z) : Z :=
  Z.lor (Z.lor baud (Z.shiftl parity 4)) (Z.lor (Z.shiftl flow 8) (Z.shiftl stop 12)).

Definition brr_baud (v : Z) : Z := Z.land v 0xF.
Definition brr_parity (v : Z) : Z := Z.land (Z.shiftr v 4) 0x3.
Definition brr_flow (v : Z) : Z := Z.land (Z.shiftr v 8) 0x1.
Definition brr_stop (v : Z) : Z := Z.land (Z.shiftr v 12) 0xF.

(** Codes of the configuration the source asks for:
    115200 baud, no parity, no flow control, one stop bit. *)
Definition BAUD_115200 : Z := 6.
Definition PARITY_NONE : Z := 2.

(** ** Devices used to run the driver *)

(** A register file: every address is a cell that keeps the last value
    stored and reads as [0] before any store. *)
Record regfile : Type := mkRegfile { cells : gmap Z Z }.

#[global] Instance regfile_device : Device regfile := {|
  dev_load d a := (default 0 (cells d !! a), d);
  dev_store d a v := mkRegfile (<[a := v]> (cells d))
|}.

(** A UART whose status bits come up after a number of loads of the status
    register: [tx_polls] (resp. [rx_polls]) loads of STA still answer "TX not
    ready" (resp. "RX not ready"); RDR reads as [rx_data]; the other
    registers are cells. *)
Record slow_uart : Type := mkSlow {
  tx_polls : nat;
  rx_polls : nat;
  rx_data : Z;
  regs : gmap Z Z
}.

Definition STA_ADDR : Z := to_uint32 (UART_BASE + STA_OFFSET).
Definition RDR_ADDR : Z := to_uint32 (UART_BASE + RDR_OFFSET).
Definition TDR_ADDR : Z := to_uint32 (UART_BASE + TDR_OFFSET).
Definition CNR_ADDR : Z := to_uint32 (UART_BASE + CNR_OFFSET).
Definition BRR_ADDR : Z := to_uint32 (UART_BASE + BRR_OFFSET).

Definition slow_status (d : slow_uart) : Z :=
  Z.lor (match rx_polls d with O => 0x01 | S _ => 0 end)
        (match tx_polls d with O => 0x02 | S _ => 0 end).

#[global] Instance slow_uart_device : Device slow_uart := {|
  dev_load d a :=
    if decide (a = STA_ADDR) then
      (slow_status d, mkSlow (Nat.pred (tx_polls d)) (Nat.pred (rx_polls d)) (rx_data d) (regs d))
    else if decide (a = RDR_ADDR) then (rx_data d, d)
    else (default 0 (regs d !! a), d);
  dev_store d a v := mkSlow (tx_polls d) (rx_polls d) (rx_data d) (<[a := v]> (regs d))
|}.

(** A handle as [main] declares it: only [isInitialized] is set (to false);
    the other fields hold whatever was in memory, here [junk]. *)
Definition fresh_handle (junk : Z) : UART_HANDLE :=
  mkHandle junk junk junk junk junk junk false.

(** An address for the handle of the examples. *)
Definition HANDLE_PTR : Z := 0x7FFC0000.

Definition boot {D} (d : D) (u : UART_HANDLE) : machine D :=
  mkMachine {[ HANDLE_PTR := u ]} d [].

(** *** Machines of the examples *)

(** The handle as [main] has it before [init_uart], over a register file. *)
Definition unconfigured : machine regfile :=
  boot (mkRegfile ∅) (fresh_handle 0xDEAD).

(** An initialized handle over a register file whose status register reads
    [0]: neither ready bit is ever set. *)
Definition never_ready : machine regfile :=
  boot (mkRegfile ∅) initialized_handle.

(** An initialized handle over a register file with RX ready and all 32
    bits of the receive-data register set. *)
Definition all_ones_received : machine regfile :=
  boot (mkRegfile {[ STA_ADDR := 0x01; RDR_ADDR := 0xFFFFFFFF ]}) initialized_handle.

(** An initialized handle over a register file with TX and RX ready and the
    byte 66 in the receive-data register. *)
Definition byte_received : machine regfile :=
  boot (mkRegfile {[ STA_ADDR := 0x03; RDR_ADDR := 66 ]}) initialized_handle.

(** An initialized handle over a register file whose status register has
    every bit set but bit 0: TX ready, RX not ready. *)
Definition tx_ready_only : machine regfile :=
  boot (mkRegfile {[ STA_ADDR := 0xFFFFFFFE ]}) initialized_handle.

(** An initialized handle over a UART that answers "not ready" to the first
    load of the status register and "TX ready, RX ready" to every later one;
    the byte received is ['B']. *)
Definition late_uart : machine slow_uart :=
  boot (mkSlow 1 1 0x42 ∅) initialized_handle.

(** ** Notions used to state the properties *)

(** What a call printed: the diagnostics among the events it appended to the
    log of the machine [m] it started from. *)
Definition diagnostics {D A} (m : machine D) (r : option (A * machine D))
  : option (list string) :=
  (λ p, printed (drop (length (log m)) (log p.2))) <$> r.

(** The register accesses a call made. *)
Definition touched {D A} (m : machine D) (r : option (A * machine D))
  : option (list event) :=
  (λ p, accesses (drop (length (log m)) (log p.2))) <$> r.

(** The value a call returned. *)
Definition returned {D A} (r : option (A * machine D)) : option A := fst <$> r.

(** The handle store a call left. *)
Definition handles_after {D A} (r : option (A * machine D))
  : option (gmap Z UART_HANDLE) :=
  (λ p, handles p.2) <$> r.

(** The value [read_uart] returns tells the outcome of the call when two
    calls that return the same value printed the same diagnostics (the only
    other thing by which the caller can tell a failed call). *)
Definition return_tells_outcome (D : Type) `{Device D} : Prop :=
  ∀ (h1 h2 : Z) (m1 m2 : machine D),
    is_Some (read_uart h1 m1) → is_Some (read_uart h2 m2) →
    returned (read_uart h1 m1) = returned (read_uart h2 m2) →
    diagnostics m1 (read_uart h1 m1) = diagnostics m2 (read_uart h2 m2).

(** Registers that behave as storage under stores: a second store to an
    address replaces the first, and stores to different addresses commute. *)
Definition register_like (D : Type) `{Device D} : Prop :=
  (∀ (d : D) a v w, dev_store (dev_store d a v) a w = dev_store d a w) ∧
  (∀ (d : D) a b v w, a ≠ b →
     dev_store (dev_store d a v) b w = dev_store (dev_store d b w) a v).

(** [init_uart] called once per element of [bs], with that flag. *)
Fixpoint init_seq {D} `{Device D} (h : Z) (bs : list bool) : M D unit :=
  match bs with
  | [] => ret tt
  | b :: bs' => init_uart h b ;;; init_seq h bs'
  end.

(** ** The wait, with the final value of [timer]

    The same loop as [wait_loop], returning also the value the local
    [timer] has when the loop is left (by falling out of it or by the
    [return] of the timeout). *)

Equations wait_loop_timer (mask staVal timer : Z) : wait_exit * Z
  by wf (TIMEOUT_LIMIT + 1 - timer) (Zwf 0) :=
wait_loop_timer mask staVal timer with decide (Z.land staVal mask = 0) := {
  | right _ => (WaitReady, timer)
  | left _ with decide (timer + 1 > TIMEOUT_LIMIT) := {
      | left _ => (WaitTimeout, timer + 1)
      | right _ => wait_loop_timer mask staVal (timer + 1) } }.
Next Obligation. unfold Zwf. lia. Qed.

(** ** Reading a log *)

Definition is_store (e : event) : bool :=
  match e with EvStore _ _ => true | _ => false end.

Definition is_load (e : event) : bool :=
  match e with EvLoad _ _ => true | _ => false end.

(** The address an event accesses, if it is an access. *)
Definition access_addr (e : event) : option Z :=
  match e with
  | EvLoad a _ | EvStore a _ => Some a
  | EvPrintf _ => None
  end.

(** The five registers of the UART at [UART_BASE]. *)
Definition uart_registers : list Z :=
  [CNR_ADDR; BRR_ADDR; STA_ADDR; TDR_ADDR; RDR_ADDR].

(** Every access of the log is to a register of the UART. *)
Definition within_uart (l : list event) : Prop :=
  ∀ e a, e ∈ l → access_addr e = Some a → a ∈ uart_registers.

(** The stores and the loads of a log. *)
Definition stores_in (l : list event) : list event :=
  filter (λ e, is_store e = true) l.

Definition loads_in (l : list event) : list event :=
  filter (λ e, is_load e = true) l.

(** All the events a call appended to the log. *)
Definition appended {D A} (m : machine D) (r : option (A * machine D))
  : option (list event) :=
  (λ p, drop (length (log m)) (log p.2)) <$> r.

(** ** [int main(int argc, char *argv[])]

    The local [uartHandle] is an object at some address [sp] of the frame of
    [main], holding [junk] until it is assigned; it is gone when [main]
    returns. ['A'] is [0x41]. The conversion [%c] prints its [int] argument
    converted to [unsigned char]. *)

Definition percent_c (v : Z) : string :=
  String (Ascii.ascii_of_N (Z.to_N (v mod 256))) EmptyString.

Definition msg_received (v : Z) : string :=
  "Received data: " ++ percent_c v ++ nl.

Definition msg_read_error : string := "Error in reading from UART. " ++ nl.

Section Main.
Context {D : Type} `{Device D}.

Definition alloc (p : Z) (junk : UART_HANDLE) : M D unit :=
  λ m, Some (tt, mkMachine (<[p := junk]> (handles m)) (hw m) (log m)).

Definition free (p : Z) : M D unit :=
  λ m, Some (tt, mkMachine (delete p (handles m)) (hw m) (log m)).

Definition main (sp : Z) (junk : UART_HANDLE) : M D Z :=
  alloc sp junk ;;;
  assign sp (set_isInitialized false) ;;;
  init_uart sp true ;;;
  write_uart sp 0x41 ;;;
  receivedData <~ read_uart sp ;;
  (if decide (receivedData ≠ -1)
   then printf (msg_received receivedData)
   else printf msg_read_error) ;;;
  free sp ;;;
  ret 0.

End Main.

(** ** Basic facts *)

Lemma wait_loop_ready mask staVal timer :
  Z.land staVal mask ≠ 0 → wait_loop mask staVal timer = WaitReady.
Proof.
  intros Hne. rewrite wait_loop_equation_1.
  destruct (decide (Z.land staVal mask = 0)) as [Heq|Hn]; [contradiction|reflexivity].
Qed.

Lemma wait_loop_timeout mask staVal timer :
  Z.land staVal mask = 0 → wait_loop mask staVal timer = WaitTimeout.
Proof.
  intros Hz. funelim (wait_loop mask staVal timer); try reflexivity; try contradiction.
  auto.
Qed.

(** ** The paths of the three functions, one equation each *)

Section Paths.
Context {D : Type} `{Device D}.

Implicit Types (m : machine D) (h c : Z) (u : UART_HANDLE).

Lemma field_some {A} h (f : UART_HANDLE → A) m u :
  handles m !! h = Some u → field h f m = Some (f u, m).
Proof. intros Hu. unfold field. by rewrite Hu. Qed.

Lemma field_none {A} h (f : UART_HANDLE → A) m :
  handles m !! h = None → field (D:=D) h f m = None.
Proof. intros Hu. unfold field. by rewrite Hu. Qed.

Lemma bind_some {A B} (c : M D A) (k : A → M D B) m a m' :
  c m = Some (a, m') → bind c k m = k a m'.
Proof. intros Hc. unfold bind. by rewrite Hc. Qed.

Lemma write_uart_null m c :
  write_uart NULL c m
  = Some (tt, mkMachine (handles m) (hw m) (log m ++ [EvPrintf msg_null])).
Proof. reflexivity. Qed.

Lemma read_uart_null m :
  read_uart NULL m
  = Some (-1, mkMachine (handles m) (hw m) (log m ++ [EvPrintf msg_null])).
Proof. reflexivity. Qed.

Lemma init_uart_null m b :
  init_uart NULL b m
  = Some (tt, mkMachine (handles m) (hw m) (log m ++ [EvPrintf msg_null])).
Proof. reflexivity. Qed.

Lemma write_uart_dangling m h c :
  h ≠ NULL → handles m !! h = None → write_uart h c m = None.
Proof.
  intros Hh Hu. unfold write_uart. destruct (decide (h = NULL)); [done|].
  unfold bind. by rewrite (field_none _ _ _ Hu).
Qed.

Lemma read_uart_dangling m h :
  h ≠ NULL → handles m !! h = None → read_uart h m = None.
Proof.
  intros Hh Hu. unfold read_uart. destruct (decide (h = NULL)); [done|].
  unfold bind. by rewrite (field_none _ _ _ Hu).
Qed.

Lemma write_uart_uninit m h c u :
  h ≠ NULL → handles m !! h = Some u → isInitialized u = false →
  write_uart h c m
  = Some (tt, mkMachine (handles m) (hw m) (log m ++ [EvPrintf msg_write_uninit])).
Proof.
  intros Hh Hu Hi. unfold write_uart. destruct (decide (h = NULL)); [done|].
  unfold bind. rewrite (field_some _ _ _ _ Hu), Hi. reflexivity.
Qed.

Lemma read_uart_uninit m h u :
  h ≠ NULL → handles m !! h = Some u → isInitialized u = false →
  read_uart h m
  = Some (-1, mkMachine (handles m) (hw m) (log m ++ [EvPrintf msg_read_uninit])).
Proof.
  intros Hh Hu Hi. unfold read_uart. destruct (decide (h = NULL)); [done|].
  unfold bind. rewrite (field_some _ _ _ _ Hu), Hi. reflexivity.
Qed.

(** On an initialized handle [write_uart] loads STA once; the value loaded
    decides between the timeout and the store to TDR. *)
Lemma write_uart_init m h c u :
  h ≠ NULL → handles m !! h = Some u → isInitialized u = true →
  write_uart h c m
  = let v := to_uint32 (dev_load (hw m) (sta u)).1 in
    let d := (dev_load (hw m) (sta u)).2 in
    if decide (Z.land v 0x02 = 0) then
      Some (tt, mkMachine (handles m) d
                  (log m ++ [EvLoad (sta u) v; EvPrintf msg_write_timeout]))
    else
      Some (tt, mkMachine (handles m) (dev_store d (tdr u) (to_uint32 c))
                  (log m ++ [EvLoad (sta u) v; EvPrintf msg_writing;
                             EvStore (tdr u) (to_uint32 c)])).
Proof.
  intros Hh Hu Hi. unfold write_uart. destruct (decide (h = NULL)); [done|].
  rewrite (bind_some _ _ _ _ _ (field_some _ isInitialized _ _ Hu)), Hi.
  cbn [negb]. rewrite (bind_some _ _ _ _ _ (field_some _ sta _ _ Hu)).
  unfold bind at 1, load32. destruct (dev_load (hw m) (sta u)) as [raw d] eqn:Hl.
  cbn [fst snd]. cbv zeta.
  destruct (decide (Z.land (to_uint32 raw) 2 = 0)) as [Hz|Hnz].
  - rewrite (wait_loop_timeout _ _ _ Hz). unfold printf. cbn [handles hw log].
    by rewrite <- app_assoc.
  - rewrite (wait_loop_ready _ _ _ Hnz). unfold bind, printf, store32, field.
    cbn [handles hw log]. rewrite Hu. cbn [handles hw log].
    by rewrite <- !app_assoc.
Qed.

(** Likewise [read_uart]: one load of STA, then either the timeout or one
    load of RDR, whose value is returned converted to [int]. *)
Lemma read_uart_init m h u :
  h ≠ NULL → handles m !! h = Some u → isInitialized u = true →
  read_uart h m
  = let v := to_uint32 (dev_load (hw m) (sta u)).1 in
    let d := (dev_load (hw m) (sta u)).2 in
    if decide (Z.land v 0x01 = 0) then
      Some (-1, mkMachine (handles m) d
                  (log m ++ [EvLoad (sta u) v; EvPrintf msg_read_timeout]))
    else
      let r := to_uint32 (dev_load d (rdr u)).1 in
      Some (to_int r, mkMachine (handles m) (dev_load d (rdr u)).2
                  (log m ++ [EvLoad (sta u) v; EvLoad (rdr u) r])).
Proof.
  intros Hh Hu Hi. unfold read_uart. destruct (decide (h = NULL)); [done|].
  rewrite (bind_some _ _ _ _ _ (field_some _ isInitialized _ _ Hu)), Hi.
  cbn [negb]. rewrite (bind_some _ _ _ _ _ (field_some _ sta _ _ Hu)).
  unfold bind at 1, load32 at 1. destruct (dev_load (hw m) (sta u)) as [raw d] eqn:Hl.
  cbn [fst snd]. cbv zeta.
  destruct (decide (Z.land (to_uint32 raw) 1 = 0)) as [Hz|Hnz].
  - rewrite (wait_loop_timeout _ _ _ Hz). unfold bind, printf, ret.
    cbn [handles hw log]. by rewrite <- app_assoc.
  - rewrite (wait_loop_ready _ _ _ Hnz). unfold bind, field, load32, ret.
    cbn [handles hw log]. rewrite Hu. cbn [handles hw log].
    destruct (dev_load d (rdr u)) as [raw' d'].
    cbn [fst snd handles hw log]. by rewrite <- !app_assoc.
Qed.

Lemma assign_some h upd m u :
  handles m !! h = Some u →
  assign h upd m = Some (tt, mkMachine (<[h := upd u]> (handles m)) (hw m) (log m)).
Proof. intros Hu. unfold assign. by rewrite Hu. Qed.

Lemma init_uart_dangling m h b :
  h ≠ NULL → handles m !! h = None → init_uart h b m = None.
Proof.
  intros Hh Hu. unfold init_uart. destruct (decide (h = NULL)); [done|].
  unfold bind, assign. by rewrite Hu.
Qed.

(** [init_uart] on a handle: every field is overwritten, and two stores are
    issued, [0x3] to CNR and [0x866] to BRR, in this order. *)
Lemma init_uart_valid m h b u :
  h ≠ NULL → handles m !! h = Some u →
  init_uart h b m
  = Some (tt, mkMachine (<[h := initialized_handle]> (handles m))
                (dev_store (dev_store (hw m) CNR_ADDR 0x3) BRR_ADDR 0x866)
                (log m ++ [EvStore CNR_ADDR 0x3; EvStore BRR_ADDR 0x866])).
Proof.
  intros Hh Hu. unfold init_uart. destruct (decide (h = NULL)); [done|].
  unfold bind, assign, field, store32. cbn [handles hw log].
  rewrite Hu. cbn [handles hw log].
  repeat (rewrite lookup_insert_eq; cbn [handles hw log]).
  rewrite !insert_insert_eq. rewrite <- app_assoc.
  reflexivity.
Qed.

End Paths.

(** ** Logs *)

Lemma last_store_app a l l' :
  last_store a (l ++ l')
  = match last_store a l' with Some v => Some v | None => last_store a l end.
Proof.
  induction l as [|e l IH]; cbn [app last_store].
  - by destruct (last_store a l').
  - rewrite IH. by destruct (last_store a l').
Qed.

Lemma drop_log {A} (l l' : list A) : drop (length l) (l ++ l') = l'.
Proof. by rewrite drop_app_length. Qed.

Lemma accesses_app l l' : accesses (l ++ l') = accesses l ++ accesses l'.
Proof. unfold accesses. apply filter_app. Qed.

(** ** Devices *)

Lemma regfile_register_like : register_like regfile.
Proof.
  split.
  - intros [c] a v w. cbn. by rewrite insert_insert_eq.
  - intros [c] a b v w Hab. cbn. f_equal. by apply insert_insert_ne.
Qed.

Lemma slow_uart_register_like : register_like slow_uart.
Proof.
  split.
  - intros [t r x c] a v w. cbn. by rewrite insert_insert_eq.
  - intros [t r x c] a b v w Hab. cbn. f_equal. by apply insert_insert_ne.
Qed.


(** ** Null handle *)

(** C7: called with a null handle, [init_uart], [write_uart] and [read_uart]
    only print the null-pointer diagnostic ([read_uart] also returns [-1]):
    the handle store and the device are left as they were and no register
    is loaded or stored. *)
Theorem null_handle_reported_without_access
  {D} `{Device D} (m : machine D) (c : Z) (b : bool) :
  init_uart NULL b m
  = Some (tt, mkMachine (handles m) (hw m) (log m ++ [EvPrintf msg_null])) ∧
  write_uart NULL c m
  = Some (tt, mkMachine (handles m) (hw m) (log m ++ [EvPrintf msg_null])) ∧
  read_uart NULL m
  = Some (-1, mkMachine (handles m) (hw m) (log m ++ [EvPrintf msg_null])) ∧
  touched m (init_uart NULL b m) = Some [] ∧
  touched m (write_uart NULL c m) = Some [] ∧
  touched m (read_uart NULL m) = Some [].
Proof.
  rewrite init_uart_null, write_uart_null, read_uart_null.
  unfold touched. cbn [fmap option_fmap option_map snd log].
  rewrite !drop_log. repeat split; reflexivity.
Qed.

(** ** Handle not initialized *)

(** C6: on a non-null handle whose [isInitialized] is false, [write_uart]
    and [read_uart] print their not-initialized diagnostic ([read_uart]
    returns [-1]) and load or store no register: the device state is the one
    before the call. *)
Theorem uninitialized_handle_refused
  {D} `{Device D} (m : machine D) (h c : Z) (u : UART_HANDLE) :
  h ≠ NULL → handles m !! h = Some u → isInitialized u = false →
  write_uart h c m
  = Some (tt, mkMachine (handles m) (hw m) (log m ++ [EvPrintf msg_write_uninit])) ∧
  read_uart h m
  = Some (-1, mkMachine (handles m) (hw m) (log m ++ [EvPrintf msg_read_uninit])) ∧
  touched m (write_uart h c m) = Some [] ∧
  touched m (read_uart h m) = Some [].
Proof.
  intros Hh Hu Hi.
  rewrite (write_uart_uninit _ _ _ _ Hh Hu Hi), (read_uart_uninit _ _ _ Hh Hu Hi).
  unfold touched. cbn [fmap option_fmap option_map snd log].
  rewrite !drop_log. repeat split; reflexivity.
Qed.

Lemma uninitialized_handle_refused_witness :
  write_uart HANDLE_PTR 0x41 (boot (mkRegfile ∅) (fresh_handle 0xDEAD))
  = Some (tt, mkMachine {[ HANDLE_PTR := fresh_handle 0xDEAD ]} (mkRegfile ∅)
                [EvPrintf msg_write_uninit]) ∧
  read_uart HANDLE_PTR (boot (mkRegfile ∅) (fresh_handle 0xDEAD))
  = Some (-1, mkMachine {[ HANDLE_PTR := fresh_handle 0xDEAD ]} (mkRegfile ∅)
                [EvPrintf msg_read_uninit]).
Proof.
  pose proof (uninitialized_handle_refused
                (boot (mkRegfile ∅) (fresh_handle 0xDEAD)) HANDLE_PTR 0x41
                (fresh_handle 0xDEAD)) as W.
  destruct W as (Hw & Hr & _).
  - unfold HANDLE_PTR, NULL. lia.
  - apply lookup_singleton_eq.
  - reflexivity.
  - split; [exact Hw | exact Hr].
Defined.

(** ** The Ready state *)

(** C8: a handle [h] that is initialized stays initialized whatever the
    driver is called with (a null pointer, [h] itself or another handle):
    [write_uart] and [read_uart] leave the whole handle store as it was,
    on every path including the timeout, and [init_uart] sets
    [isInitialized] to true and never to false. *)
Theorem ready_is_never_left
  {D} `{Device D} (m : machine D) (h p c : Z) (b : bool) (u : UART_HANDLE) :
  handles m !! h = Some u → isInitialized u = true →
  p = NULL ∨ is_Some (handles m !! p) →
  handles_after (write_uart p c m) = Some (handles m) ∧
  handles_after (read_uart p m) = Some (handles m) ∧
  ∃ hs u', handles_after (init_uart p b m) = Some hs ∧
           hs !! h = Some u' ∧ isInitialized u' = true.
Proof.
  intros Hu Hi Hp. destruct (decide (p = NULL)) as [->|Hn].
  - rewrite write_uart_null, read_uart_null, init_uart_null.
    repeat split; try reflexivity. exists (handles m), u. by repeat split.
  - destruct Hp as [Hp|[v Hv]]; [done|]. repeat split.
    + destruct (isInitialized v) eqn:Ev.
      * rewrite (write_uart_init _ _ _ _ Hn Hv Ev). cbv zeta.
        by destruct (decide _).
      * by rewrite (write_uart_uninit _ _ _ _ Hn Hv Ev).
    + destruct (isInitialized v) eqn:Ev.
      * rewrite (read_uart_init _ _ _ Hn Hv Ev). cbv zeta.
        by destruct (decide _).
      * by rewrite (read_uart_uninit _ _ _ Hn Hv Ev).
    + rewrite (init_uart_valid _ _ b _ Hn Hv). cbn.
      destruct (decide (p = h)) as [->|Hne].
      * exists (<[h := initialized_handle]> (handles m)), initialized_handle.
        by rewrite lookup_insert_eq.
      * exists (<[p := initialized_handle]> (handles m)), u.
        by rewrite lookup_insert_ne.
Qed.

Lemma ready_is_never_left_witness :
  handles_after (write_uart HANDLE_PTR 0x41 (boot (mkSlow 1 1 0x42 ∅) initialized_handle))
  = Some {[ HANDLE_PTR := initialized_handle ]} ∧
  handles_after (read_uart HANDLE_PTR (boot (mkSlow 1 1 0x42 ∅) initialized_handle))
  = Some {[ HANDLE_PTR := initialized_handle ]} ∧
  ∃ hs u', handles_after (init_uart HANDLE_PTR true
                            (boot (mkSlow 1 1 0x42 ∅) initialized_handle)) = Some hs ∧
           hs !! HANDLE_PTR = Some u' ∧ isInitialized u' = true.
Proof.
  apply (ready_is_never_left (boot (mkSlow 1 1 0x42 ∅) initialized_handle)
           HANDLE_PTR HANDLE_PTR 0x41 true initialized_handle).
  - apply lookup_singleton_eq.
  - reflexivity.
  - right. exists initialized_handle. apply lookup_singleton_eq.
Defined.

(** ** Runs on the example machines *)

Lemma handle_ptr_not_null : HANDLE_PTR ≠ NULL.
Proof. unfold HANDLE_PTR, NULL. lia. Qed.

Lemma boot_lookup {D} (d : D) u : handles (boot d u) !! HANDLE_PTR = Some u.
Proof. apply lookup_singleton_eq. Qed.

Lemma read_never_ready :
  read_uart HANDLE_PTR never_ready
  = Some (-1, mkMachine {[ HANDLE_PTR := initialized_handle ]} (mkRegfile ∅)
                [EvLoad STA_ADDR 0; EvPrintf msg_read_timeout]).
Proof.
  unfold never_ready, all_ones_received, late_uart.
  rewrite (read_uart_init _ _ initialized_handle handle_ptr_not_null
             (boot_lookup _ _) eq_refl).
  vm_compute. reflexivity.
Qed.

Lemma write_never_ready c :
  write_uart HANDLE_PTR c never_ready
  = Some (tt, mkMachine {[ HANDLE_PTR := initialized_handle ]} (mkRegfile ∅)
                [EvLoad STA_ADDR 0; EvPrintf msg_write_timeout]).
Proof.
  unfold never_ready, all_ones_received, late_uart.
  rewrite (write_uart_init _ _ _ initialized_handle handle_ptr_not_null
             (boot_lookup _ _) eq_refl).
  vm_compute. reflexivity.
Qed.

Lemma read_all_ones_received :
  read_uart HANDLE_PTR all_ones_received
  = Some (-1, mkMachine {[ HANDLE_PTR := initialized_handle ]}
                (mkRegfile {[ STA_ADDR := 0x01; RDR_ADDR := 0xFFFFFFFF ]})
                [EvLoad STA_ADDR 0x01; EvLoad RDR_ADDR 0xFFFFFFFF]).
Proof.
  unfold never_ready, all_ones_received, late_uart.
  rewrite (read_uart_init _ _ initialized_handle handle_ptr_not_null
             (boot_lookup _ _) eq_refl).
  vm_compute. reflexivity.
Qed.

Lemma write_late_uart c :
  write_uart HANDLE_PTR c late_uart
  = Some (tt, mkMachine {[ HANDLE_PTR := initialized_handle ]} (mkSlow 0 0 0x42 ∅)
                [EvLoad STA_ADDR 0; EvPrintf msg_write_timeout]).
Proof.
  unfold never_ready, all_ones_received, late_uart.
  rewrite (write_uart_init _ _ _ initialized_handle handle_ptr_not_null
             (boot_lookup _ _) eq_refl).
  vm_compute. reflexivity.
Qed.

Lemma read_late_uart :
  read_uart HANDLE_PTR late_uart
  = Some (-1, mkMachine {[ HANDLE_PTR := initialized_handle ]} (mkSlow 0 0 0x42 ∅)
                [EvLoad STA_ADDR 0; EvPrintf msg_read_timeout]).
Proof.
  unfold never_ready, all_ones_received, late_uart.
  rewrite (read_uart_init _ _ initialized_handle handle_ptr_not_null
             (boot_lookup _ _) eq_refl).
  vm_compute. reflexivity.
Qed.

Lemma init_unconfigured b :
  init_uart HANDLE_PTR b unconfigured
  = Some (tt, mkMachine {[ HANDLE_PTR := initialized_handle ]}
                (mkRegfile {[ CNR_ADDR := 0x3; BRR_ADDR := 0x866 ]})
                [EvStore CNR_ADDR 0x3; EvStore BRR_ADDR 0x866]).
Proof.
  unfold unconfigured.
  rewrite (init_uart_valid _ _ b (fresh_handle 0xDEAD) handle_ptr_not_null
             (boot_lookup _ _)).
  vm_compute. reflexivity.
Qed.

(** ** Initialization *)

(** C5: on a valid handle [init_uart] returns with the five register
    pointers at [baseAddress] plus [0x0], [0x4], [0x8], [0xC] and [0x10],
    with [isInitialized] true, and having stored [0x3] to the control
    register and then [0x866] to the baud/format register (and nothing
    else), so that these are the last values stored there. *)
Theorem init_uart_configures_handle
  {D} `{Device D} (m : machine D) (h : Z) (b : bool) (u : UART_HANDLE) :
  h ≠ NULL → handles m !! h = Some u →
  ∃ m' u',
    init_uart h b m = Some (tt, m') ∧ handles m' !! h = Some u' ∧
    cnr u' = baseAddress u' + 0x0 ∧
    brr u' = baseAddress u' + 0x4 ∧
    sta u' = baseAddress u' + 0x8 ∧
    tdr u' = baseAddress u' + 0xC ∧
    rdr u' = baseAddress u' + 0x10 ∧
    isInitialized u' = true ∧
    log m' = log m ++ [EvStore (cnr u') 0x3; EvStore (brr u') 0x866] ∧
    hw m' = dev_store (dev_store (hw m) (cnr u') 0x3) (brr u') 0x866 ∧
    last_store (cnr u') (log m') = Some 0x3 ∧
    last_store (brr u') (log m') = Some 0x866.
Proof.
  intros Hh Hu. eexists _, initialized_handle.
  split; [exact (init_uart_valid m h b u Hh Hu)|].
  cbn [handles hw log]. rewrite lookup_insert_eq, !last_store_app.
  repeat split; reflexivity.
Qed.

Lemma init_uart_configures_handle_witness :
  ∃ m' u',
    init_uart HANDLE_PTR true unconfigured = Some (tt, m') ∧
    handles m' !! HANDLE_PTR = Some u' ∧
    cnr u' = baseAddress u' + 0x0 ∧
    brr u' = baseAddress u' + 0x4 ∧
    sta u' = baseAddress u' + 0x8 ∧
    tdr u' = baseAddress u' + 0xC ∧
    rdr u' = baseAddress u' + 0x10 ∧
    isInitialized u' = true ∧
    log m' = log unconfigured ++ [EvStore (cnr u') 0x3; EvStore (brr u') 0x866] ∧
    hw m' = dev_store (dev_store (hw unconfigured) (cnr u') 0x3) (brr u') 0x866 ∧
    last_store (cnr u') (log m') = Some 0x3 ∧
    last_store (brr u') (log m') = Some 0x866.
Proof.
  apply (init_uart_configures_handle unconfigured HANDLE_PTR true (fresh_handle 0xDEAD)).
  - unfold HANDLE_PTR, NULL. lia.
  - apply lookup_singleton_eq.
Defined.

Section Reinit.
Context {D : Type} `{Device D}.

(** From a machine where the handle is already as [init_uart] leaves it,
    any number of further calls changes nothing but the log. *)
Lemma init_seq_fixed (h : Z) (bs : list bool) (m : machine D) :
  h ≠ NULL → handles m !! h = Some initialized_handle →
  last_store CNR_ADDR (log m) = Some 0x3 →
  last_store BRR_ADDR (log m) = Some 0x866 →
  ∃ m', init_seq h bs m = Some (tt, m') ∧
        handles m' = handles m ∧
        last_store CNR_ADDR (log m') = Some 0x3 ∧
        last_store BRR_ADDR (log m') = Some 0x866 ∧
        (dev_store (dev_store (hw m) CNR_ADDR 0x3) BRR_ADDR 0x866 = hw m →
         hw m' = hw m).
Proof.
  intros Hh. revert m. induction bs as [|b bs IH]; intros m Hu Hc Hb.
  - exists m. by repeat split.
  - cbn [init_seq]. rewrite (bind_some _ _ _ _ _ (init_uart_valid m h b _ Hh Hu)).
    destruct (IH (mkMachine (<[h := initialized_handle]> (handles m))
                    (dev_store (dev_store (hw m) CNR_ADDR 0x3) BRR_ADDR 0x866)
                    (log m ++ [EvStore CNR_ADDR 0x3; EvStore BRR_ADDR 0x866])))
      as (m' & Hrun & Hhs & Hc' & Hb' & Hhw).
    + cbn [handles]. apply lookup_insert_eq.
    + cbn [log]. by rewrite last_store_app.
    + cbn [log]. by rewrite last_store_app.
    + exists m'. cbn [handles hw log] in *. repeat split; try done.
      * rewrite Hhs. by apply insert_id.
      * intros Hfix. rewrite Hhw; rewrite Hfix; done.
Qed.

Lemma stores_settle (d : D) a b v w :
  register_like D → a ≠ b →
  dev_store (dev_store (dev_store (dev_store d a v) b w) a v) b w
  = dev_store (dev_store d a v) b w.
Proof.
  intros [Hsame Hswap] Hab.
  rewrite (Hswap (dev_store d a v) b a w v) by done.
  by rewrite !Hsame.
Qed.

End Reinit.

(** C9: after a first [init_uart] on a valid handle, calling it again any
    number of times (with any [useMock] flags) leaves the handle store, hence
    the register addresses and [isInitialized], as the first call left them;
    the last values stored to the control and baud/format registers are the
    same; and on a device whose registers behave as storage the device state
    is the same too. *)
Theorem init_uart_idempotent
  {D} `{Device D} (m : machine D) (h : Z) (b : bool) (bs : list bool)
  (u : UART_HANDLE) :
  h ≠ NULL → handles m !! h = Some u →
  ∃ m1 m2,
    init_uart h b m = Some (tt, m1) ∧ init_seq h bs m1 = Some (tt, m2) ∧
    handles m2 = handles m1 ∧
    last_store CNR_ADDR (log m2) = last_store CNR_ADDR (log m1) ∧
    last_store BRR_ADDR (log m2) = last_store BRR_ADDR (log m1) ∧
    (register_like D → hw m2 = hw m1).
Proof.
  intros Hh Hu.
  destruct (init_seq_fixed h bs
              (mkMachine (<[h := initialized_handle]> (handles m))
                 (dev_store (dev_store (hw m) CNR_ADDR 0x3) BRR_ADDR 0x866)
                 (log m ++ [EvStore CNR_ADDR 0x3; EvStore BRR_ADDR 0x866])) Hh)
    as (m2 & Hrun & Hhs & Hc & Hb & Hhw).
  - cbn [handles]. apply lookup_insert_eq.
  - cbn [log]. by rewrite last_store_app.
  - cbn [log]. by rewrite last_store_app.
  - eexists _, m2. split; [exact (init_uart_valid m h b u Hh Hu)|].
    cbn [handles hw log] in *. rewrite !last_store_app.
    repeat split; try done.
    intros Hreg. apply Hhw. by apply stores_settle.
Qed.

Lemma init_uart_idempotent_witness :
  ∃ m1 m2,
    init_uart HANDLE_PTR true unconfigured = Some (tt, m1) ∧
    init_seq HANDLE_PTR [true; false; true] m1 = Some (tt, m2) ∧
    handles m2 = handles m1 ∧
    last_store CNR_ADDR (log m2) = last_store CNR_ADDR (log m1) ∧
    last_store BRR_ADDR (log m2) = last_store BRR_ADDR (log m1) ∧
    hw m2 = hw m1.
Proof.
  destruct (init_uart_idempotent unconfigured HANDLE_PTR true [true; false; true]
              (fresh_handle 0xDEAD))
    as (m1 & m2 & Hfirst & Hnext & Hhs & Hc & Hb & Hhw).
  - unfold HANDLE_PTR, NULL. lia.
  - apply lookup_singleton_eq.
  - exists m1, m2. repeat split; try assumption.
    apply Hhw, regfile_register_like.
Defined.

(** ** What [read_uart] returns *)

Lemma to_int_small v : 0 ≤ v < 2 ^ 31 → to_int v = v.
Proof.
  intros Hv. unfold to_int, to_uint32. rewrite Z.mod_small by lia.
  destruct (decide (v < 2 ^ 31)); [done|lia].
Qed.

Lemma to_int_large v : 2 ^ 31 ≤ v < 2 ^ 32 → to_int v = v - 2 ^ 32.
Proof.
  intros Hv. unfold to_int, to_uint32. rewrite Z.mod_small by lia.
  destruct (decide (v < 2 ^ 31)); [lia|done].
Qed.

(** C10: [read_uart] returns [-1] for a null handle, for a handle that is
    not initialized and on timeout; when RX is ready it returns the 32-bit
    value loaded from the receive-data register converted to [int], with no
    mask applied (a value below [2^31] is returned as it is, a larger one
    minus [2^32]), so that a register holding [0xFFFFFFFF] is read as [-1],
    the value of the error paths. *)
Theorem read_uart_return_value
  {D} `{Device D} (m : machine D) (h : Z) (u : UART_HANDLE) :
  h ≠ NULL → handles m !! h = Some u →
  returned (read_uart NULL m) = Some (-1) ∧
  (isInitialized u = false → returned (read_uart h m) = Some (-1)) ∧
  (isInitialized u = true →
   Z.land (to_uint32 (dev_load (hw m) (sta u)).1) 0x01 = 0 →
   returned (read_uart h m) = Some (-1)) ∧
  (isInitialized u = true →
   Z.land (to_uint32 (dev_load (hw m) (sta u)).1) 0x01 ≠ 0 →
   ∀ r, r = to_uint32 (dev_load (dev_load (hw m) (sta u)).2 (rdr u)).1 →
        returned (read_uart h m) = Some (to_int r) ∧
        (r < 2 ^ 31 → to_int r = r) ∧
        (2 ^ 31 ≤ r → to_int r = r - 2 ^ 32) ∧
        (r = 0xFFFFFFFF → returned (read_uart h m) = Some (-1))).
Proof.
  intros Hh Hu. split; [by rewrite read_uart_null|]. split; [|split].
  - intros Hi. by rewrite (read_uart_uninit _ _ _ Hh Hu Hi).
  - intros Hi Hz. rewrite (read_uart_init _ _ _ Hh Hu Hi). cbv zeta.
    destruct (decide _); [done|contradiction].
  - intros Hi Hnz r Hr. rewrite (read_uart_init _ _ _ Hh Hu Hi). cbv zeta.
    destruct (decide _); [contradiction|]. rewrite <- Hr.
    assert (0 ≤ r < 2 ^ 32) as Hrange
      by (subst r; unfold to_uint32; apply Z.mod_pos_bound; lia).
    split; [reflexivity|]. split; [|split].
    + intros Hlt. apply to_int_small. lia.
    + intros Hge. apply to_int_large. lia.
    + intros ->. reflexivity.
Qed.

Lemma read_uart_return_value_witness :
  returned (read_uart NULL all_ones_received) = Some (-1) ∧
  (isInitialized initialized_handle = true →
   Z.land (to_uint32 (dev_load (hw all_ones_received) (sta initialized_handle)).1) 0x01 ≠ 0 →
   ∀ r, r = to_uint32 (dev_load (dev_load (hw all_ones_received)
                                   (sta initialized_handle)).2
                         (rdr initialized_handle)).1 →
        returned (read_uart HANDLE_PTR all_ones_received) = Some (to_int r) ∧
        (r < 2 ^ 31 → to_int r = r) ∧
        (2 ^ 31 ≤ r → to_int r = r - 2 ^ 32) ∧
        (r = 0xFFFFFFFF → returned (read_uart HANDLE_PTR all_ones_received) = Some (-1))).
Proof.
  destruct (read_uart_return_value all_ones_received HANDLE_PTR initialized_handle)
    as (Hnull & _ & _ & Hok).
  - unfold HANDLE_PTR, NULL. lia.
  - apply lookup_singleton_eq.
  - split; [exact Hnull | exact Hok].
Defined.

(** ** How an outcome is reported *)

(** The returned value does not tell the outcome: on a register file,
    [read_uart] returns [-1] on a null handle (printing the null-pointer
    diagnostic), on a timeout (printing the timeout diagnostic) and when it
    reads [0xFFFFFFFF] from the receive-data register (printing nothing). *)
Lemma read_uart_return_does_not_tell_outcome :
  returned (read_uart NULL never_ready) = Some (-1) ∧
  diagnostics never_ready (read_uart NULL never_ready) = Some [msg_null] ∧
  returned (read_uart HANDLE_PTR never_ready) = Some (-1) ∧
  diagnostics never_ready (read_uart HANDLE_PTR never_ready) = Some [msg_read_timeout] ∧
  returned (read_uart HANDLE_PTR all_ones_received) = Some (-1) ∧
  diagnostics all_ones_received (read_uart HANDLE_PTR all_ones_received) = Some [] ∧
  ¬ return_tells_outcome regfile.
Proof.
  rewrite read_uart_null, read_never_ready, read_all_ones_received.
  repeat split; try reflexivity.
  intros Htell.
  specialize (Htell HANDLE_PTR HANDLE_PTR never_ready all_ones_received).
  rewrite read_never_ready, read_all_ones_received in Htell.
  specialize (Htell (mk_is_Some _ _ eq_refl) (mk_is_Some _ _ eq_refl) eq_refl).
  vm_compute in Htell. discriminate Htell.
Qed.

(** C3, as amended: each operation tells its outcome by what it prints.
    A null handle, a handle that is not initialized and a timeout each have
    a diagnostic of their own, different from one another and from what a
    successful call prints ([write_uart]: the "Writing data" notice;
    [read_uart] and [init_uart]: nothing). [init_uart] and [write_uart]
    return no value; [read_uart] returns [-1] on each of the three errors,
    and a successful read of a byte value (0 to 255) returns that value,
    which is not [-1]. *)
Theorem diagnostics_tell_outcome
  {D} `{Device D} (m : machine D) (h c : Z) (b : bool) (u : UART_HANDLE) :
  h ≠ NULL → handles m !! h = Some u →
  (diagnostics m (init_uart NULL b m) = Some [msg_null] ∧
   diagnostics m (write_uart NULL c m) = Some [msg_null] ∧
   diagnostics m (read_uart NULL m) = Some [msg_null] ∧
   returned (read_uart NULL m) = Some (-1)) ∧
  (isInitialized u = false →
   diagnostics m (write_uart h c m) = Some [msg_write_uninit] ∧
   diagnostics m (read_uart h m) = Some [msg_read_uninit] ∧
   returned (read_uart h m) = Some (-1)) ∧
  (isInitialized u = true →
   Z.land (to_uint32 (dev_load (hw m) (sta u)).1) 0x02 = 0 →
   diagnostics m (write_uart h c m) = Some [msg_write_timeout]) ∧
  (isInitialized u = true →
   Z.land (to_uint32 (dev_load (hw m) (sta u)).1) 0x01 = 0 →
   diagnostics m (read_uart h m) = Some [msg_read_timeout] ∧
   returned (read_uart h m) = Some (-1)) ∧
  diagnostics m (init_uart h b m) = Some [] ∧
  (isInitialized u = true →
   Z.land (to_uint32 (dev_load (hw m) (sta u)).1) 0x02 ≠ 0 →
   diagnostics m (write_uart h c m) = Some [msg_writing]) ∧
  (isInitialized u = true →
   Z.land (to_uint32 (dev_load (hw m) (sta u)).1) 0x01 ≠ 0 →
   diagnostics m (read_uart h m) = Some [] ∧
   ∀ v, 0 ≤ v ≤ 255 →
        to_uint32 (dev_load (dev_load (hw m) (sta u)).2 (rdr u)).1 = v →
        returned (read_uart h m) = Some v ∧ v ≠ -1) ∧
  NoDup [msg_null; msg_write_uninit; msg_write_timeout; msg_writing] ∧
  NoDup [msg_null; msg_read_uninit; msg_read_timeout].
Proof.
  intros Hh Hu.
  rewrite init_uart_null, write_uart_null, read_uart_null, (init_uart_valid _ _ b _ Hh Hu).
  unfold diagnostics, returned.
  cbn [fmap option_fmap option_map fst snd log]. rewrite !drop_log.
  split; [by repeat split|]. split; [|split; [|split; [|split; [|split; [|split]]]]].
  - intros Hi.
    rewrite (write_uart_uninit _ _ _ _ Hh Hu Hi), (read_uart_uninit _ _ _ Hh Hu Hi).
    cbn [fmap option_fmap option_map fst snd log]. rewrite !drop_log.
    by repeat split.
  - intros Hi Hz. rewrite (write_uart_init _ _ _ _ Hh Hu Hi). cbv zeta.
    destruct (decide _); [|contradiction].
    cbn [fmap option_fmap option_map fst snd log]. by rewrite drop_log.
  - intros Hi Hz. rewrite (read_uart_init _ _ _ Hh Hu Hi). cbv zeta.
    destruct (decide _); [|contradiction].
    cbn [fmap option_fmap option_map fst snd log]. by rewrite drop_log.
  - reflexivity.
  - intros Hi Hnz. rewrite (write_uart_init _ _ _ _ Hh Hu Hi). cbv zeta.
    destruct (decide _); [contradiction|].
    cbn [fmap option_fmap option_map fst snd log]. by rewrite drop_log.
  - intros Hi Hnz. rewrite (read_uart_init _ _ _ Hh Hu Hi). cbv zeta.
    destruct (decide _); [contradiction|].
    cbn [fmap option_fmap option_map fst snd log]. rewrite drop_log.
    split; [reflexivity|]. intros v Hv ->.
    rewrite to_int_small by lia. split; [reflexivity|lia].
  - split; apply (bool_decide_unpack _); vm_compute; reflexivity.
Qed.

Lemma diagnostics_tell_outcome_witness :
  diagnostics byte_received (write_uart HANDLE_PTR 0x41 byte_received)
  = Some [msg_writing] ∧
  diagnostics byte_received (read_uart HANDLE_PTR byte_received) = Some [] ∧
  returned (read_uart HANDLE_PTR byte_received) = Some 66 ∧ 66 ≠ -1.
Proof.
  destruct (diagnostics_tell_outcome byte_received HANDLE_PTR 0x41 true
              initialized_handle) as (_ & _ & _ & _ & _ & Hw & Hr & _).
  - unfold HANDLE_PTR, NULL. lia.
  - apply lookup_singleton_eq.
  - destruct Hr as [Hd Hv]; [reflexivity | vm_compute; discriminate |].
    split; [apply Hw; [reflexivity | vm_compute; discriminate]|].
    split; [exact Hd|].
    apply (Hv 66); [lia | vm_compute; reflexivity].
Defined.

(** ** The wait for a ready bit *)

(** C1: on a UART that reports "not ready" at the first load of the status
    register and "TX ready, RX ready" from the second load on, [write_uart]
    and [read_uart] on an initialized handle load the status register once,
    print the timeout diagnostic and return ([read_uart] with [-1]):
    nothing is stored to the transmit-data register and the receive-data
    register is not loaded, although the next load of the status register
    would have found both ready bits set. On every device the outcome is
    decided by that single load: if it shows the ready bit clear, the call
    times out in the device state the load left. *)
Theorem status_loaded_once_then_timeout :
  write_uart HANDLE_PTR 0x41 late_uart
  = Some (tt, mkMachine {[ HANDLE_PTR := initialized_handle ]} (mkSlow 0 0 0x42 ∅)
                [EvLoad STA_ADDR 0; EvPrintf msg_write_timeout]) ∧
  read_uart HANDLE_PTR late_uart
  = Some (-1, mkMachine {[ HANDLE_PTR := initialized_handle ]} (mkSlow 0 0 0x42 ∅)
                [EvLoad STA_ADDR 0; EvPrintf msg_read_timeout]) ∧
  (dev_load (mkSlow 0 0 0x42 ∅) STA_ADDR).1 = 0x03 ∧
  (∀ (D : Type) (dev : Device D) (m : machine D) (h c : Z) (u : UART_HANDLE),
     h ≠ NULL → handles m !! h = Some u → isInitialized u = true →
     (Z.land (to_uint32 (dev_load (hw m) (sta u)).1) 0x02 = 0 →
      write_uart h c m
      = Some (tt, mkMachine (handles m) (dev_load (hw m) (sta u)).2
                    (log m ++ [EvLoad (sta u) (to_uint32 (dev_load (hw m) (sta u)).1);
                               EvPrintf msg_write_timeout]))) ∧
     (Z.land (to_uint32 (dev_load (hw m) (sta u)).1) 0x01 = 0 →
      read_uart h m
      = Some (-1, mkMachine (handles m) (dev_load (hw m) (sta u)).2
                    (log m ++ [EvLoad (sta u) (to_uint32 (dev_load (hw m) (sta u)).1);
                               EvPrintf msg_read_timeout])))).
Proof.
  split; [apply write_late_uart|]. split; [apply read_late_uart|].
  split; [vm_compute; reflexivity|].
  intros D dev m h c u Hh Hu Hi. split; intros Hz.
  - rewrite (write_uart_init _ _ _ _ Hh Hu Hi). cbv zeta.
    destruct (decide _); [reflexivity|contradiction].
  - rewrite (read_uart_init _ _ _ Hh Hu Hi). cbv zeta.
    destruct (decide _); [reflexivity|contradiction].
Qed.

(** ** The baud/format value *)

(** C2: the value [init_uart] stores to the baud/format register is [0x866],
    whereas the layout of the source's header packs baud code 6, parity
    code 2, no flow control and one stop bit as [0x1026]. The two agree on
    the baud, parity and flow-control fields; in [0x866] the stop-bit field
    is 0 and bits 6 and 11, which belong to no field, are set. *)
Theorem init_uart_brr_is_not_the_packed_configuration :
  (∃ m', init_uart HANDLE_PTR true unconfigured = Some (tt, m') ∧
         last_store BRR_ADDR (log m') = Some 0x866 ∧
         cells (hw m') !! BRR_ADDR = Some 0x866) ∧
  brr_pack BAUD_115200 PARITY_NONE 0 1 = 0x1026 ∧
  0x866 ≠ brr_pack BAUD_115200 PARITY_NONE 0 1 ∧
  brr_baud 0x866 = BAUD_115200 ∧
  brr_parity 0x866 = PARITY_NONE ∧
  brr_flow 0x866 = 0 ∧
  brr_stop 0x866 = 0 ∧
  Z.testbit 0x866 6 = true ∧
  Z.testbit 0x866 11 = true.
Proof.
  split.
  - eexists. split; [apply init_unconfigured|]. cbn [log hw cells].
    split; vm_compute; reflexivity.
  - repeat split; try reflexivity. vm_compute. discriminate.
Qed.

(** ** The [useMock] flag *)

(** C4: [init_uart] does not look at [useMock]: with the flag true it does
    exactly what it does with the flag false, on every machine and every
    handle pointer; in particular the handle gets the addresses
    [UART_BASE + offset] in both cases. *)
Theorem init_uart_ignores_useMock {D} `{Device D} (m : machine D) (h : Z) :
  init_uart h true m = init_uart h false m ∧
  handles_after (init_uart HANDLE_PTR true unconfigured)
  = Some {[ HANDLE_PTR := initialized_handle ]} ∧
  handles_after (init_uart HANDLE_PTR false unconfigured)
  = Some {[ HANDLE_PTR := initialized_handle ]}.
Proof.
  split; [reflexivity|]. rewrite !init_unconfigured. split; reflexivity.
Qed.

(** ** Further properties of the driver *)

(** *** The wait loop *)

Lemma wait_loop_timer_ready mask staVal timer :
  Z.land staVal mask ≠ 0 → wait_loop_timer mask staVal timer = (WaitReady, timer).
Proof.
  intros Hne. rewrite wait_loop_timer_equation_1.
  destruct (decide (Z.land staVal mask = 0)) as [Heq|Hn]; [contradiction|reflexivity].
Qed.

Lemma wait_loop_timer_timeout mask staVal timer :
  Z.land staVal mask = 0 →
  wait_loop_timer mask staVal timer
  = (WaitTimeout, Z.max (timer + 1) (TIMEOUT_LIMIT + 1)).
Proof.
  intros Hz. funelim (wait_loop_timer mask staVal timer); try contradiction.
  - f_equal. lia.
  - rewrite H by done. f_equal. lia.
Qed.

(** X1: the wait is decided before its first iteration. With the tested
    bit set in [staVal] the loop body never runs ([timer] keeps its value);
    with the bit clear the loop always ends by the timeout, and from
    [timer = 0] it does so after exactly [TIMEOUT_LIMIT + 1] increments,
    a value of [timer] that fits in an [int]. *)
Theorem wait_loop_iterations (mask staVal timer : Z) :
  (wait_loop_timer mask staVal timer).1 = wait_loop mask staVal timer ∧
  (Z.land staVal mask ≠ 0 →
   wait_loop_timer mask staVal timer = (WaitReady, timer)) ∧
  (Z.land staVal mask = 0 →
   wait_loop_timer mask staVal timer
   = (WaitTimeout, Z.max (timer + 1) (TIMEOUT_LIMIT + 1)) ∧
   wait_loop_timer mask staVal 0 = (WaitTimeout, 1000001) ∧
   (wait_loop_timer mask staVal 0).2 < 2 ^ 31).
Proof.
  split; [|split].
  - destruct (decide (Z.land staVal mask = 0)) as [Hz|Hnz].
    + by rewrite (wait_loop_timer_timeout _ _ _ Hz), (wait_loop_timeout _ _ _ Hz).
    + by rewrite (wait_loop_timer_ready _ _ _ Hnz), (wait_loop_ready _ _ _ Hnz).
  - apply wait_loop_timer_ready.
  - intros Hz. rewrite !(wait_loop_timer_timeout _ _ _ Hz).
    by repeat split.
Qed.

(** *** Which bit of the status value counts *)

Lemma land_pow2_testbit v n :
  0 ≤ n → Z.land v (2 ^ n) ≠ 0 ↔ Z.testbit v n = true.
Proof.
  intros Hn. split.
  - intros Hne. destruct (Z.testbit v n) eqn:Hb; [done|]. exfalso. apply Hne.
    apply Z.bits_inj'. intros k Hk.
    rewrite Z.land_spec, Z.pow2_bits_eqb, Z.bits_0 by done.
    destruct (Z.eqb_spec n k) as [->|]; [by rewrite Hb|apply andb_false_r].
  - intros Hb Hz. apply (f_equal (λ x, Z.testbit x n)) in Hz.
    rewrite Z.land_spec, Z.pow2_bits_eqb, Z.bits_0, Hb, Z.eqb_refl in Hz by done.
    discriminate.
Qed.

(** X2: on an initialized handle the outcome of a call depends on one bit
    of the value loaded from the status register, whatever the other 31
    bits are: [write_uart] stores the character to the transmit-data
    register exactly when bit 1 is set and times out otherwise; [read_uart]
    loads the receive-data register exactly when bit 0 is set and times out
    otherwise. *)
Theorem outcome_depends_on_one_status_bit
  {D} `{Device D} (m : machine D) (h c : Z) (u : UART_HANDLE) :
  h ≠ NULL → handles m !! h = Some u → isInitialized u = true →
  (Z.testbit (to_uint32 (dev_load (hw m) (sta u)).1) 1 = true →
   appended m (write_uart h c m)
   = Some [EvLoad (sta u) (to_uint32 (dev_load (hw m) (sta u)).1);
           EvPrintf msg_writing; EvStore (tdr u) (to_uint32 c)]) ∧
  (Z.testbit (to_uint32 (dev_load (hw m) (sta u)).1) 1 = false →
   appended m (write_uart h c m)
   = Some [EvLoad (sta u) (to_uint32 (dev_load (hw m) (sta u)).1);
           EvPrintf msg_write_timeout]) ∧
  (Z.testbit (to_uint32 (dev_load (hw m) (sta u)).1) 0 = true →
   appended m (read_uart h m)
   = Some [EvLoad (sta u) (to_uint32 (dev_load (hw m) (sta u)).1);
           EvLoad (rdr u)
             (to_uint32 (dev_load (dev_load (hw m) (sta u)).2 (rdr u)).1)]) ∧
  (Z.testbit (to_uint32 (dev_load (hw m) (sta u)).1) 0 = false →
   appended m (read_uart h m)
   = Some [EvLoad (sta u) (to_uint32 (dev_load (hw m) (sta u)).1);
           EvPrintf msg_read_timeout]).
Proof.
  intros Hh Hu Hi.
  rewrite (write_uart_init _ _ _ _ Hh Hu Hi), (read_uart_init _ _ _ Hh Hu Hi).
  cbv zeta. unfold appended.
  pose proof (land_pow2_testbit (to_uint32 (dev_load (hw m) (sta u)).1) 1) as H1.
  pose proof (land_pow2_testbit (to_uint32 (dev_load (hw m) (sta u)).1) 0) as H0.
  change (2 ^ 1) with 2 in H1. change (2 ^ 0) with 1 in H0.
  repeat split; intros Hb.
  - destruct (decide _) as [Hz|Hnz].
    + exfalso. apply H1 in Hb; [done|lia].
    + cbn [fmap option_fmap option_map snd log]. by rewrite drop_log.
  - destruct (decide _) as [Hz|Hnz].
    + cbn [fmap option_fmap option_map snd log]. by rewrite drop_log.
    + apply H1 in Hnz; [congruence|lia].
  - destruct (decide _) as [Hz|Hnz].
    + exfalso. apply H0 in Hb; [done|lia].
    + cbn [fmap option_fmap option_map snd log]. by rewrite drop_log.
  - destruct (decide _) as [Hz|Hnz].
    + cbn [fmap option_fmap option_map snd log]. by rewrite drop_log.
    + apply H0 in Hnz; [congruence|lia].
Qed.

Lemma outcome_depends_on_one_status_bit_witness :
  appended tx_ready_only (write_uart HANDLE_PTR 0x41 tx_ready_only)
  = Some [EvLoad STA_ADDR 0xFFFFFFFE; EvPrintf msg_writing; EvStore TDR_ADDR 0x41] ∧
  appended tx_ready_only (read_uart HANDLE_PTR tx_ready_only)
  = Some [EvLoad STA_ADDR 0xFFFFFFFE; EvPrintf msg_read_timeout].
Proof.
  destruct (outcome_depends_on_one_status_bit tx_ready_only HANDLE_PTR 0x41
              initialized_handle) as (Hw & _ & _ & Hr).
  - unfold HANDLE_PTR, NULL. lia.
  - apply lookup_singleton_eq.
  - reflexivity.
  - split; [apply Hw | apply Hr]; vm_compute; reflexivity.
Defined.

(** *** How many accesses a call makes *)

(** X3: whatever the handle (null, not initialized or initialized) and
    whatever the device answers, [read_uart] never stores to a register and
    loads at most twice, and [write_uart] loads at most once and stores at
    most once, the one store being of the character, converted to
    [uint32_t], to the handle's transmit-data register. *)
Theorem access_budget {D} `{Device D} (m : machine D) (h c : Z) :
  h = NULL ∨ is_Some (handles m !! h) →
  (∃ evs, appended m (read_uart h m) = Some evs ∧
          stores_in evs = [] ∧ (length (loads_in evs) ≤ 2)%nat) ∧
  (∃ evs, appended m (write_uart h c m) = Some evs ∧
          (length (loads_in evs) ≤ 1)%nat ∧
          (stores_in evs = [] ∨
           ∃ u, handles m !! h = Some u ∧
                stores_in evs = [EvStore (tdr u) (to_uint32 c)])).
Proof.
  intros Hp. unfold appended. destruct (decide (h = NULL)) as [->|Hn].
  - rewrite read_uart_null, write_uart_null.
    cbn [fmap option_fmap option_map snd log]. rewrite !drop_log.
    split; eexists; (split; [reflexivity|]); cbn; auto.
  - destruct Hp as [Hp|[u Hu]]; [done|]. destruct (isInitialized u) eqn:Hi.
    + rewrite (read_uart_init _ _ _ Hn Hu Hi), (write_uart_init _ _ _ _ Hn Hu Hi).
      cbv zeta. split.
      * destruct (decide _); cbn [fmap option_fmap option_map snd log];
          rewrite drop_log; eexists; (split; [reflexivity|]); cbn; auto.
      * destruct (decide _); cbn [fmap option_fmap option_map snd log];
          rewrite drop_log; eexists; (split; [reflexivity|]); cbn; eauto.
    + rewrite (read_uart_uninit _ _ _ Hn Hu Hi), (write_uart_uninit _ _ _ _ Hn Hu Hi).
      cbn [fmap option_fmap option_map snd log]. rewrite !drop_log.
      split; eexists; (split; [reflexivity|]); cbn; auto.
Qed.

Lemma access_budget_witness :
  (∃ evs, appended byte_received (read_uart HANDLE_PTR byte_received) = Some evs ∧
          stores_in evs = [] ∧ (length (loads_in evs) ≤ 2)%nat) ∧
  (∃ evs, appended byte_received (write_uart HANDLE_PTR 0x41 byte_received) = Some evs ∧
          (length (loads_in evs) ≤ 1)%nat ∧
          (stores_in evs = [] ∨
           ∃ u, handles byte_received !! HANDLE_PTR = Some u ∧
                stores_in evs = [EvStore (tdr u) (to_uint32 0x41)])).
Proof.
  apply (access_budget byte_received HANDLE_PTR 0x41).
  right. exists initialized_handle. apply lookup_singleton_eq.
Defined.

(** *** [init_uart] and the rest of the memory *)

(** X4: [init_uart] on a valid handle leaves every other handle of the
    store as it was, and its result does not depend on what the handle held
    before the call: every field is overwritten. *)
Theorem init_uart_frame
  {D} `{Device D} (m : machine D) (h : Z) (b : bool) (u : UART_HANDLE) :
  h ≠ NULL → handles m !! h = Some u →
  ∃ m', init_uart h b m = Some (tt, m') ∧
        (∀ p, p ≠ h → handles m' !! p = handles m !! p) ∧
        (∀ u2, init_uart h b (mkMachine (<[h := u2]> (handles m)) (hw m) (log m))
               = Some (tt, m')).
Proof.
  intros Hh Hu. eexists. split; [exact (init_uart_valid m h b u Hh Hu)|].
  cbn [handles]. split.
  - intros p Hp. by rewrite lookup_insert_ne.
  - intros u2.
    rewrite (init_uart_valid _ h b u2 Hh) by (cbn [handles]; apply lookup_insert_eq).
    cbn [handles hw log]. by rewrite insert_insert_eq.
Qed.

Lemma init_uart_frame_witness :
  ∃ m', init_uart HANDLE_PTR true unconfigured = Some (tt, m') ∧
        (∀ p, p ≠ HANDLE_PTR → handles m' !! p = handles unconfigured !! p) ∧
        (∀ u2, init_uart HANDLE_PTR true
                 (mkMachine (<[HANDLE_PTR := u2]> (handles unconfigured))
                    (hw unconfigured) (log unconfigured))
               = Some (tt, m')).
Proof.
  apply (init_uart_frame unconfigured HANDLE_PTR true (fresh_handle 0xDEAD)).
  - unfold HANDLE_PTR, NULL. lia.
  - apply lookup_singleton_eq.
Defined.

(** *** What a caller can conclude from the value [read_uart] returns *)

Lemma to_int_range v : - 2 ^ 31 ≤ to_int v < 2 ^ 31.
Proof.
  unfold to_int. cbv zeta.
  assert (0 ≤ to_uint32 v < 2 ^ 32) by (unfold to_uint32; apply Z.mod_pos_bound; lia).
  destruct (decide _); lia.
Qed.

Lemma to_uint32_to_int v : to_uint32 (to_int v) = to_uint32 v.
Proof.
  unfold to_int. cbv zeta.
  assert (0 ≤ to_uint32 v < 2 ^ 32) as Hr
    by (unfold to_uint32; apply Z.mod_pos_bound; lia).
  destruct (decide _).
  - unfold to_uint32 at 1. by rewrite Z.mod_small by lia.
  - unfold to_uint32 at 1.
    replace (to_uint32 v - 2 ^ 32) with (to_uint32 v + (-1) * 2 ^ 32) by lia.
    rewrite Z.mod_add by lia. by rewrite Z.mod_small by lia.
Qed.

(** X5: the value [read_uart] returns is always an [int], and a value other
    than [-1] is never produced by an error path: the handle was then
    initialized, nothing was printed, the last thing the call did was to
    load the receive-data register, and the 32-bit value loaded is the
    returned value taken modulo [2^32]. *)
Theorem read_uart_success_is_genuine
  {D} `{Device D} (m m' : machine D) (h r : Z) :
  read_uart h m = Some (r, m') →
  - 2 ^ 31 ≤ r < 2 ^ 31 ∧
  (r ≠ -1 →
   ∃ u, handles m !! h = Some u ∧ isInitialized u = true ∧
        last (log m') = Some (EvLoad (rdr u) (to_uint32 r)) ∧
        printed (drop (length (log m)) (log m')) = []).
Proof.
  intros Hrun. destruct (decide (h = NULL)) as [->|Hn].
  { rewrite read_uart_null in Hrun. injection Hrun as <- <-. split; [lia|done]. }
  destruct (handles m !! h) as [u|] eqn:Hu;
    [|by rewrite (read_uart_dangling _ _ Hn Hu) in Hrun].
  destruct (isInitialized u) eqn:Hi.
  - rewrite (read_uart_init _ _ _ Hn Hu Hi) in Hrun. cbv zeta in Hrun.
    destruct (decide _) in Hrun.
    + injection Hrun as <- <-. split; [lia|done].
    + injection Hrun as <- <-. split; [apply to_int_range|].
      intros _. exists u. split; [done|]. split; [done|]. split.
      * cbn [log]. rewrite to_uint32_to_int.
        unfold to_uint32. rewrite Z.mod_mod by lia.
        by rewrite last_app.
      * cbn [log]. by rewrite drop_log.
  - rewrite (read_uart_uninit _ _ _ Hn Hu Hi) in Hrun.
    injection Hrun as <- <-. split; [lia|done].
Qed.

Lemma read_uart_success_is_genuine_witness :
  - 2 ^ 31 ≤ 66 < 2 ^ 31 ∧
  (66 ≠ -1 →
   ∃ u, handles byte_received !! HANDLE_PTR = Some u ∧ isInitialized u = true ∧
        last [EvLoad STA_ADDR 0x03; EvLoad RDR_ADDR 66]
        = Some (EvLoad (rdr u) (to_uint32 66)) ∧
        printed (drop (length (log byte_received))
                   [EvLoad STA_ADDR 0x03; EvLoad RDR_ADDR 66]) = []).
Proof.
  apply (read_uart_success_is_genuine byte_received
           (mkMachine {[ HANDLE_PTR := initialized_handle ]}
              (mkRegfile {[ STA_ADDR := 0x03; RDR_ADDR := 66 ]})
              [EvLoad STA_ADDR 0x03; EvLoad RDR_ADDR 66])
           HANDLE_PTR 66).
  unfold byte_received.
  rewrite (read_uart_init _ _ initialized_handle handle_ptr_not_null
             (boot_lookup _ _) eq_refl).
  vm_compute. reflexivity.
Defined.

(** ** The sample program *)

Section MainRun.
Context {D : Type} `{Device D}.

(** The run of [main], from the answers of the device. *)
Lemma main_run (sp : Z) (junk : UART_HANDLE) (m : machine D) :
  sp ≠ NULL →
  main sp junk m
  = let d1 := dev_store (dev_store (hw m) CNR_ADDR 0x3) BRR_ADDR 0x866 in
    let v1 := to_uint32 (dev_load d1 STA_ADDR).1 in
    let d2 := (dev_load d1 STA_ADDR).2 in
    let tx_timeout := bool_decide (Z.land v1 0x02 = 0) in
    let d3 := if tx_timeout then d2 else dev_store d2 TDR_ADDR 0x41 in
    let evw := if tx_timeout then [EvPrintf msg_write_timeout]
               else [EvPrintf msg_writing; EvStore TDR_ADDR 0x41] in
    let v2 := to_uint32 (dev_load d3 STA_ADDR).1 in
    let d4 := (dev_load d3 STA_ADDR).2 in
    let rx_timeout := bool_decide (Z.land v2 0x01 = 0) in
    let r := to_uint32 (dev_load d4 RDR_ADDR).1 in
    let d5 := if rx_timeout then d4 else (dev_load d4 RDR_ADDR).2 in
    let evr := if rx_timeout then [EvPrintf msg_read_timeout]
               else [EvLoad RDR_ADDR r] in
    let res := if rx_timeout then -1 else to_int r in
    let fin := if decide (res ≠ -1) then msg_received res else msg_read_error in
    Some (0, mkMachine (delete sp (handles m)) d5
               (log m ++ [EvStore CNR_ADDR 0x3; EvStore BRR_ADDR 0x866;
                          EvLoad STA_ADDR v1]
                  ++ evw ++ [EvLoad STA_ADDR v2] ++ evr ++ [EvPrintf fin])).
Proof.
  intros Hsp. unfold main.
  rewrite (bind_some (alloc sp junk) _ m tt _ eq_refl).
  rewrite (bind_some (assign sp _) _ _ tt _
             (assign_some _ _ _ junk (lookup_insert_eq _ _ _))).
  cbn [handles hw log].
  rewrite (bind_some (init_uart sp true) _ _ tt _
             (init_uart_valid _ _ _ (set_isInitialized false junk) Hsp
                (lookup_insert_eq _ _ _))).
  cbn [handles hw log]. rewrite !insert_insert_eq.
  unfold bind at 1.
  rewrite (write_uart_init _ sp _ initialized_handle Hsp (lookup_insert_eq _ _ _) eq_refl).
  cbv zeta. cbn [handles hw log sta tdr initialized_handle].
  fold STA_ADDR TDR_ADDR.
  set (d1 := dev_store (dev_store (hw m) CNR_ADDR 3) BRR_ADDR 2150).
  set (v1 := to_uint32 (dev_load d1 STA_ADDR).1).
  set (d2 := (dev_load d1 STA_ADDR).2).
  destruct (decide (Z.land v1 2 = 0)) as [Htx|Htx].
  - rewrite (bool_decide_eq_true_2 _ Htx).
    unfold bind at 1.
    rewrite (read_uart_init _ sp initialized_handle Hsp (lookup_insert_eq _ _ _) eq_refl).
    cbv zeta. cbn [handles hw log sta rdr initialized_handle].
    fold STA_ADDR RDR_ADDR.
    set (v2 := to_uint32 (dev_load d2 STA_ADDR).1).
    set (d4 := (dev_load d2 STA_ADDR).2).
    destruct (decide (Z.land v2 1 = 0)) as [Hrx|Hrx].
    + rewrite (bool_decide_eq_true_2 _ Hrx).
      unfold bind, printf, free, ret. cbn [handles hw log].
      destruct (decide (-1 ≠ -1)); [done|]. cbn [handles hw log].
      rewrite delete_insert_eq. by rewrite <- !app_assoc.
    + rewrite (bool_decide_eq_false_2 _ Hrx).
      unfold bind, printf, free, ret. cbn [handles hw log].
      destruct (decide _); cbn [handles hw log];
        rewrite delete_insert_eq; by rewrite <- !app_assoc.
  - rewrite (bool_decide_eq_false_2 _ Htx).
    unfold bind at 1.
    rewrite (read_uart_init _ sp initialized_handle Hsp (lookup_insert_eq _ _ _) eq_refl).
    cbv zeta. cbn [handles hw log sta rdr initialized_handle].
    fold STA_ADDR RDR_ADDR.
    change (to_uint32 65) with 65.
    set (d3 := dev_store d2 TDR_ADDR 65).
    set (v2 := to_uint32 (dev_load d3 STA_ADDR).1).
    set (d4 := (dev_load d3 STA_ADDR).2).
    destruct (decide (Z.land v2 1 = 0)) as [Hrx|Hrx].
    + rewrite (bool_decide_eq_true_2 _ Hrx).
      unfold bind, printf, free, ret. cbn [handles hw log].
      destruct (decide (-1 ≠ -1)); [done|]. cbn [handles hw log].
      rewrite delete_insert_eq. by rewrite <- !app_assoc.
    + rewrite (bool_decide_eq_false_2 _ Hrx).
      unfold bind, printf, free, ret. cbn [handles hw log].
      destruct (decide _); cbn [handles hw log];
        rewrite delete_insert_eq; by rewrite <- !app_assoc.
Qed.

End MainRun.

(** *** Logs that stay within the UART *)

Lemma within_uart_nil : within_uart [].
Proof. intros e a He. by apply elem_of_nil in He. Qed.

Lemma within_uart_printf s l : within_uart l → within_uart (EvPrintf s :: l).
Proof.
  intros Hl e a He Ha. apply elem_of_cons in He as [->|He]; [done|].
  by apply (Hl e).
Qed.

Lemma within_uart_load a v l :
  a ∈ uart_registers → within_uart l → within_uart (EvLoad a v :: l).
Proof.
  intros Hr Hl e a' He Ha. apply elem_of_cons in He as [->|He].
  - cbn in Ha. by injection Ha as <-.
  - by apply (Hl e).
Qed.

Lemma within_uart_store a v l :
  a ∈ uart_registers → within_uart l → within_uart (EvStore a v :: l).
Proof.
  intros Hr Hl e a' He Ha. apply elem_of_cons in He as [->|He].
  - cbn in Ha. by injection Ha as <-.
  - by apply (Hl e).
Qed.

Lemma within_uart_app l l' : within_uart l → within_uart l' → within_uart (l ++ l').
Proof.
  intros Hl Hl' e a He Ha. apply elem_of_app in He as [He|He].
  - by apply (Hl e).
  - by apply (Hl' e).
Qed.

Lemma uart_registers_elem :
  CNR_ADDR ∈ uart_registers ∧ BRR_ADDR ∈ uart_registers ∧
  STA_ADDR ∈ uart_registers ∧ TDR_ADDR ∈ uart_registers ∧
  RDR_ADDR ∈ uart_registers.
Proof. unfold uart_registers. repeat split; set_solver. Qed.

Ltac within_uart :=
  repeat first
    [ apply within_uart_nil
    | apply within_uart_printf
    | apply within_uart_load; [apply uart_registers_elem|]
    | apply within_uart_store; [apply uart_registers_elem|]
    | apply within_uart_app ].

(** *** [init_uart] followed by a transfer *)

(** X6: whatever the handle's pointers held before, once [init_uart] has
    run on it a following [write_uart] or [read_uart] accesses only
    registers of the UART at [UART_BASE], never reports a handle that is
    not initialized, and prints nothing but the notice of the store or the
    timeout diagnostic. *)
Theorem after_init_transfers_stay_within_uart
  {D} `{Device D} (m : machine D) (h c : Z) (b : bool) (u : UART_HANDLE) :
  h ≠ NULL → handles m !! h = Some u →
  (∃ evs, appended m ((init_uart h b ;;; write_uart h c) m) = Some evs ∧
          within_uart evs ∧
          (printed evs = [msg_writing] ∨ printed evs = [msg_write_timeout])) ∧
  (∃ evs, appended m ((init_uart h b ;;; read_uart h) m) = Some evs ∧
          within_uart evs ∧
          (printed evs = [] ∨ printed evs = [msg_read_timeout])).
Proof.
  intros Hh Hu. unfold appended.
  rewrite !(bind_some _ _ _ _ _ (init_uart_valid m h b u Hh Hu)).
  rewrite (write_uart_init _ h c initialized_handle Hh (lookup_insert_eq _ _ _) eq_refl).
  rewrite (read_uart_init _ h initialized_handle Hh (lookup_insert_eq _ _ _) eq_refl).
  cbv zeta. cbn [handles hw log sta tdr rdr initialized_handle].
  fold STA_ADDR TDR_ADDR RDR_ADDR. split.
  - destruct (decide _); cbn [fmap option_fmap option_map snd log];
      rewrite <- app_assoc, drop_log; eexists; (split; [reflexivity|]);
      (split; [cbn [app]; within_uart | cbn; auto]).
  - destruct (decide _); cbn [fmap option_fmap option_map snd log];
      rewrite <- app_assoc, drop_log; eexists; (split; [reflexivity|]);
      (split; [cbn [app]; within_uart | cbn; auto]).
Qed.

Lemma after_init_transfers_stay_within_uart_witness :
  (∃ evs, appended unconfigured
            ((init_uart HANDLE_PTR true ;;; write_uart HANDLE_PTR 0x41) unconfigured)
          = Some evs ∧
          within_uart evs ∧
          (printed evs = [msg_writing] ∨ printed evs = [msg_write_timeout])) ∧
  (∃ evs, appended unconfigured
            ((init_uart HANDLE_PTR true ;;; read_uart HANDLE_PTR) unconfigured)
          = Some evs ∧
          within_uart evs ∧
          (printed evs = [] ∨ printed evs = [msg_read_timeout])).
Proof.
  apply (after_init_transfers_stay_within_uart unconfigured HANDLE_PTR 0x41 true
           (fresh_handle 0xDEAD)).
  - unfold HANDLE_PTR, NULL. lia.
  - apply lookup_singleton_eq.
Defined.

(** *** What [main] does on any device *)

(** X7: [main] is defined on every device and for every content of its
    frame, and returns [0]. Its handle is gone afterwards and the other
    handles are untouched. It starts with the stores of [0x3] to the
    control register and [0x866] to the baud/format register, accesses
    nothing but the registers of the UART, and never takes the null-handle
    or the not-initialized path of a function it calls. *)
Theorem main_is_safe
  {D} `{Device D} (sp : Z) (junk : UART_HANDLE) (m : machine D) :
  sp ≠ NULL →
  ∃ m' evs,
    main sp junk m = Some (0, m') ∧ log m' = log m ++ evs ∧
    handles m' = delete sp (handles m) ∧
    (handles m !! sp = None → handles m' = handles m) ∧
    take 2 evs = [EvStore CNR_ADDR 0x3; EvStore BRR_ADDR 0x866] ∧
    within_uart evs ∧
    Forall (λ s, s ≠ msg_null ∧ s ≠ msg_write_uninit ∧ s ≠ msg_read_uninit)
      (printed evs).
Proof.
  intros Hsp. rewrite (main_run sp junk m Hsp). cbv zeta.
  eexists _, _. split; [reflexivity|]. cbn [handles hw log].
  split; [reflexivity|]. split; [reflexivity|].
  split; [intros Hnone; by apply delete_id|].
  split; [reflexivity|]. split.
  - cbn [app]. apply within_uart_store; [apply uart_registers_elem|].
    apply within_uart_store; [apply uart_registers_elem|].
    apply within_uart_load; [apply uart_registers_elem|].
    repeat case_bool_decide; within_uart.
  - repeat case_bool_decide; repeat case_decide; cbn;
      repeat (apply Forall_cons; split; [by repeat split|]); by apply Forall_nil.
Qed.

Lemma main_is_safe_witness :
  ∃ m' evs,
    main HANDLE_PTR (fresh_handle 0xDEAD) (mkMachine ∅ (mkRegfile ∅) [])
    = Some (0, m') ∧
    log m' = [] ++ evs ∧
    handles m' = delete HANDLE_PTR ∅ ∧
    ((∅ : gmap Z UART_HANDLE) !! HANDLE_PTR = None → handles m' = ∅) ∧
    take 2 evs = [EvStore CNR_ADDR 0x3; EvStore BRR_ADDR 0x866] ∧
    within_uart evs ∧
    Forall (λ s, s ≠ msg_null ∧ s ≠ msg_write_uninit ∧ s ≠ msg_read_uninit)
      (printed evs).
Proof.
  apply (main_is_safe HANDLE_PTR (fresh_handle 0xDEAD) (mkMachine ∅ (mkRegfile ∅) [])).
  unfold HANDLE_PTR, NULL. lia.
Defined.

Lemma to_int_minus_one r : 0 ≤ r < 2 ^ 32 → to_int r = -1 → r = 0xFFFFFFFF.
Proof.
  intros Hr. unfold to_int, to_uint32. rewrite Z.mod_small by lia.
  destruct (decide _); lia.
Qed.

Lemma sta_not_rdr : STA_ADDR ≠ RDR_ADDR.
Proof. vm_compute. discriminate. Qed.

Ltac event_cases H :=
  repeat (apply elem_of_cons in H as [H|H];
          [first [ discriminate H
                 | solve [exfalso; apply sta_not_rdr; congruence]
                 | idtac ]|]);
  try (by apply elem_of_nil in H).

(** X8: the last thing [main] prints is its verdict on the read. It prints
    the received character exactly when the receive-data register was
    loaded with a value other than [0xFFFFFFFF]; in every other run
    (timeout of the read, or a load of [0xFFFFFFFF], which [read_uart]
    returns as [-1]) it prints the read-error message. *)
Theorem main_verdict
  {D} `{Device D} (sp : Z) (junk : UART_HANDLE) (m : machine D) :
  sp ≠ NULL →
  ∃ m' evs,
    main sp junk m = Some (0, m') ∧ log m' = log m ++ evs ∧
    ((last evs = Some (EvPrintf msg_read_error) ∧
      ∀ v, EvLoad RDR_ADDR v ∈ evs → v = 0xFFFFFFFF) ∨
     (∃ v, EvLoad RDR_ADDR v ∈ evs ∧ v ≠ 0xFFFFFFFF ∧
           last evs = Some (EvPrintf (msg_received (to_int v))))).
Proof.
  intros Hsp. rewrite (main_run sp junk m Hsp). cbv zeta.
  eexists _, _. split; [reflexivity|]. cbn [handles hw log].
  split; [reflexivity|].
  rewrite !app_assoc, last_snoc.
  repeat case_bool_decide; cbn [app]; cbv beta iota.
  all: lazymatch goal with
       | |- context [to_int ?x] =>
           set (r := x);
           assert (0 ≤ r < 2 ^ 32) as Hrange
             by (unfold r, to_uint32; apply Z.mod_pos_bound; lia);
           destruct (decide (to_int r ≠ -1)) as [Hok|Hbad];
           [ right; exists r; split; [repeat constructor|]; split; [|done];
             intros Heq; apply Hok; by rewrite Heq
           | left; split; [done|]; intros v Hv;
             assert (to_int r = -1) as Hm
               by (destruct (decide (to_int r = -1)); [done|by destruct Hbad]);
             pose proof (to_int_minus_one r Hrange Hm) as Hall;
             event_cases Hv; congruence ]
       | |- _ =>
           left; destruct (decide (-1 ≠ -1)); [done|]; split; [done|];
           intros v Hv; event_cases Hv
       end.
Qed.

Lemma main_verdict_witness :
  ∃ m' evs,
    main HANDLE_PTR (fresh_handle 0xDEAD) (mkMachine ∅ (mkRegfile ∅) [])
    = Some (0, m') ∧
    log m' = [] ++ evs ∧
    ((last evs = Some (EvPrintf msg_read_error) ∧
      ∀ v, EvLoad RDR_ADDR v ∈ evs → v = 0xFFFFFFFF) ∨
     (∃ v, EvLoad RDR_ADDR v ∈ evs ∧ v ≠ 0xFFFFFFFF ∧
           last evs = Some (EvPrintf (msg_received (to_int v))))).
Proof.
  apply (main_verdict HANDLE_PTR (fresh_handle 0xDEAD) (mkMachine ∅ (mkRegfile ∅) [])).
  unfold HANDLE_PTR, NULL. lia.
Defined.

(** *** Calling again after a timeout *)


